(** * vllm/inputs/data.py: prompt schemas and normalized engine inputs

    A shallow embedding of the module [vllm.inputs.data].  Python
    dictionaries (the [TypedDict]s of the module) are finite maps from
    field names to Python values, so that the presence or absence of a
    field is observable, as it is in the source.  [torch.Tensor] and
    [MultiModalDataDict] are declared outside this module and are never
    inspected by it: they are parameters of the development. *)

From Stdlib Require Import ZArith.
From stdpp Require Import gmap strings list fin_maps.

#[local] Set Warnings "-register-all".
#[local] Open Scope string_scope.

(** ** Exceptions

    The only operation of the module that can raise is the subscript
    [d[k]] on a dictionary, which raises [KeyError] on a missing key. *)

Inductive exn : Type :=
  | KeyError (key : string).

Inductive res (A : Type) : Type :=
  | Ret (a : A)
  | Raise (e : exn).

Arguments Ret {A} a.
Arguments Raise {A} e.

#[global] Instance res_ret : MRet res := fun A a => Ret a.

#[global] Instance res_bind : MBind res := fun A B f m =>
  match m with
  | Ret a => f a
  | Raise e => Raise e
  end.

(** ** Iterables

    [zip_enc_dec_prompts] and [to_enc_dec_tuple_list] take [Iterable]s.
    A sequence (a list, a tuple) is traversed from its start by every
    [iter()].  An iterator (a generator, what [iter] or [map] returns) is
    an object of the store and its own [iter()]: [next()] takes the items
    it has left away one by one, for everyone who holds the object. *)

Inductive iterable (A : Type) : Type :=
  | Sequence (items : list A)
  | Iterator (ref : nat).

Arguments Sequence {A} items.
Arguments Iterator {A} ref.

(** What [iter()] returns: a traversal of its own for a sequence, the
    object itself for an iterator. *)
Inductive cursor (A : Type) : Type :=
  | Fresh (rest : list A)
  | Shared (ref : nat).

Arguments Fresh {A} rest.
Arguments Shared {A} ref.

(** The store: the items each iterator object has still to yield. *)
Abbreviation store A := (gmap nat (list A)).

Definition iter {A} (it : iterable A) : cursor A :=
  match it with
  | Sequence items => Fresh items
  | Iterator ref => Shared ref
  end.

(** [next(c)]: [None] stands for [StopIteration]. *)
Definition next {A} (c : cursor A) (h : store A)
    : option (A * cursor A * store A) :=
  match c with
  | Fresh [] => None
  | Fresh (x :: rest) => Some (x, Fresh rest, h)
  | Shared ref =>
      match h !! ref with
      | Some (x :: rest) => Some (x, Shared ref, <[ref := rest]> h)
      | _ => None
      end
  end.

Definition remaining {A} (c : cursor A) (h : store A) : nat :=
  match c with
  | Fresh rest => length rest
  | Shared ref => length (default [] (h !! ref))
  end.

(** The builtin [zip] of two iterators, driven to its end: each round
    asks the first iterator, then the second, and stops at the first
    [StopIteration]; an item taken from the first iterator in the round
    where the second one stops is gone.  Every round takes an item from
    the first iterator, so [S (remaining c1 h)] rounds are enough. *)
Fixpoint zip_rounds {A} (rounds : nat) (c1 c2 : cursor A) (h : store A)
    : list (A * A) * store A :=
  match rounds with
  | 0 => ([], h)
  | S rounds =>
      match next c1 h with
      | None => ([], h)
      | Some (x, c1', h1) =>
          match next c2 h1 with
          | None => ([], h1)
          | Some (y, c2', h2) =>
              let '(tuples, h') := zip_rounds rounds c1' c2' h2 in
              ((x, y) :: tuples, h')
          end
      end
  end.

Definition builtin_zip {A} (a b : iterable A) (h : store A)
    : list (A * A) * store A :=
  zip_rounds (S (remaining (iter a) h)) (iter a) (iter b) h.

Section Inputs.

Variables (Tensor MultiModalDataDict : Type).

(** ** Python values

    The values that flow through the module: [None], [str], [List[int]],
    [torch.Tensor], [MultiModalDataDict] and [dict] with [str] keys. *)

Inductive value : Type :=
  | VNone
  | VStr (s : string)
  | VInts (ids : list Z)
  | VTensor (t : Tensor)
  | VMultiModal (m : MultiModalDataDict)
  | VDict (d : gmap string value).

Abbreviation dict := (gmap string value).

(** [d[k]] *)
Definition subscript (d : dict) (k : string) : res value :=
  match d !! k with
  | Some v => Ret v
  | None => Raise (KeyError k)
  end.

(** [if x is not None: d[k] = x], for an argument annotated [Optional[...]] *)
Definition set_if_not_None {A : Type} (k : string) (inj : A → value)
    (x : option A) (d : dict) : dict :=
  match x with
  | Some a => <[k := inj a]> d
  | None => d
  end.

(** ** Normalizing constructors *)

Definition token_inputs (prompt_token_ids : list Z) (prompt : option string)
    (multi_modal_data : option MultiModalDataDict) : dict :=
  let inputs : dict :=
    <["prompt_token_ids" := VInts prompt_token_ids]> {["type" := VStr "token"]} in
  let inputs := set_if_not_None "prompt" VStr prompt inputs in
  let inputs := set_if_not_None "multi_modal_data" VMultiModal multi_modal_data inputs in
  inputs.

Definition embed_inputs (prompt_embeds : Tensor)
    (multi_modal_data : option MultiModalDataDict) : dict :=
  let inputs : dict :=
    <["prompt_embeds" := VTensor prompt_embeds]> {["type" := VStr "embed"]} in
  let inputs := set_if_not_None "multi_modal_data" VMultiModal multi_modal_data inputs in
  inputs.

Definition empty_inputs (_ : unit) : dict :=
  {["type" := VStr "empty"]}.

(** ** Encoder/decoder pairing

    [_T1] and [_T2] range over the members of the union [SingletonPrompt];
    [Optional[_T2]] adds [None].  All of them are Python values. *)

Definition build_explicit_enc_dec_prompt (encoder_prompt decoder_prompt : value)
    : dict :=
  <["decoder_prompt" := decoder_prompt]> {["encoder_prompt" := encoder_prompt]}.

(** The builtin [zip] on two finite sequences is stdpp's [zip]: it stops at
    the end of the shorter one. *)
Definition zip_enc_dec_prompts (enc_prompts dec_prompts : list value)
    : list dict :=
  (λ '(encoder_prompt, decoder_prompt),
     build_explicit_enc_dec_prompt encoder_prompt decoder_prompt)
  <$> zip enc_prompts dec_prompts.

Fixpoint to_enc_dec_tuple_list (enc_dec_prompts : list dict)
    : res (list (value * value)) :=
  match enc_dec_prompts with
  | [] => mret []
  | enc_dec_prompt :: rest =>
      e ← subscript enc_dec_prompt "encoder_prompt";
      d ← subscript enc_dec_prompt "decoder_prompt";
      tl ← to_enc_dec_tuple_list rest;
      mret ((e, d) :: tl)
  end.

(** ** The pairing functions on iterables

    The same two functions with their arguments as [Iterable]s and the
    store they run in. *)

Definition zip_enc_dec_prompts_iter (enc_prompts dec_prompts : iterable value)
    (h : store value) : list dict * store value :=
  let '(tuples, h') := builtin_zip enc_prompts dec_prompts h in
  ((λ '(encoder_prompt, decoder_prompt),
      build_explicit_enc_dec_prompt encoder_prompt decoder_prompt)
   <$> tuples, h').

(** The comprehension of [to_enc_dec_tuple_list]: it takes the pairs one
    by one and stops at the first exception, leaving the rest in the
    iterator. *)
Fixpoint tuple_rounds (rounds : nat) (c : cursor dict) (h : store dict)
    : res (list (value * value)) * store dict :=
  match rounds with
  | 0 => (Ret [], h)
  | S rounds =>
      match next c h with
      | None => (Ret [], h)
      | Some (enc_dec_prompt, c', h1) =>
          match (e ← subscript enc_dec_prompt "encoder_prompt";
                 d ← subscript enc_dec_prompt "decoder_prompt";
                 mret (e, d)) with
          | Raise err => (Raise err, h1)
          | Ret t =>
              let '(r, h') := tuple_rounds rounds c' h1 in
              (tl ← r; mret (t :: tl), h')
          end
      end
  end.

Definition to_enc_dec_tuple_list_iter (enc_dec_prompts : iterable dict)
    (h : store dict) : res (list (value * value)) * store dict :=
  tuple_rounds (S (remaining (iter enc_dec_prompts) h))
               (iter enc_dec_prompts) h.

(** ** The schemas

    The [TypedDict] declarations of the module, as decidable predicates on
    dictionaries: a field without [NotRequired] must be there with a
    value of its type, a [NotRequired] one may be missing.  The classes
    say nothing about further fields, and a dictionary that holds some
    still has the declared type. *)

Definition is_None (v : value) : bool :=
  match v with VNone => true | _ => false end.
Definition is_str (v : value) : bool :=
  match v with VStr _ => true | _ => false end.
Definition is_literal (lit : string) (v : value) : bool :=
  match v with VStr s => bool_decide (s = lit) | _ => false end.
Definition is_int_list (v : value) : bool :=
  match v with VInts _ => true | _ => false end.
Definition is_tensor (v : value) : bool :=
  match v with VTensor _ => true | _ => false end.
Definition is_multi_modal (v : value) : bool :=
  match v with VMultiModal _ => true | _ => false end.

Definition required (P : value → bool) (k : string) (d : dict) : bool :=
  match d !! k with Some v => P v | None => false end.
Definition not_required (P : value → bool) (k : string) (d : dict) : bool :=
  match d !! k with Some v => P v | None => true end.

(** No field besides [ks].  No class asks for it; what the functions of
    the module build has it. *)
Definition only_keys (ks : list string) (d : dict) : bool :=
  bool_decide (dom d ⊆ list_to_set ks).

Definition is_TextPrompt (d : dict) : bool :=
  required is_str "prompt" d
  && not_required is_multi_modal "multi_modal_data" d.

Definition is_TokensPrompt (d : dict) : bool :=
  required is_int_list "prompt_token_ids" d
  && not_required is_multi_modal "multi_modal_data" d.

Definition is_EmbedsPrompt (d : dict) : bool :=
  required is_tensor "prompt_embeds" d
  && not_required is_multi_modal "multi_modal_data" d.

(** [SingletonPrompt = Union[str, TextPrompt, TokensPrompt, EmbedsPrompt]] *)
Definition is_SingletonPrompt (v : value) : bool :=
  match v with
  | VStr _ => true
  | VDict d => is_TextPrompt d || is_TokensPrompt d || is_EmbedsPrompt d
  | _ => false
  end.

Definition is_Optional (P : value → bool) (v : value) : bool :=
  is_None v || P v.

Definition is_ExplicitEncoderDecoderPrompt (d : dict) : bool :=
  required is_SingletonPrompt "encoder_prompt" d
  && required (is_Optional is_SingletonPrompt) "decoder_prompt" d.

Definition is_TokenInputs (d : dict) : bool :=
  required (is_literal "token") "type" d
  && required is_int_list "prompt_token_ids" d
  && not_required is_str "prompt" d
  && not_required is_multi_modal "multi_modal_data" d.

Definition is_EmbedInputs (d : dict) : bool :=
  required (is_literal "embed") "type" d
  && required is_tensor "prompt_embeds" d
  && not_required is_multi_modal "multi_modal_data" d.

Definition is_EmptyInputs (d : dict) : bool :=
  required (is_literal "empty") "type" d.

(** [DecoderOnlyInputs = Union[TokenInputs, EmbedInputs]] *)
Definition is_DecoderOnlyInputs (d : dict) : bool :=
  is_TokenInputs d || is_EmbedInputs d.

Definition is_dict (P : dict → bool) (v : value) : bool :=
  match v with VDict d => P d | _ => false end.

Definition is_EncoderDecoderInputs (d : dict) : bool :=
  required (is_dict is_TokenInputs) "encoder" d
  && required (is_dict (λ x, is_EmptyInputs x || is_TokenInputs x)) "decoder" d.

(** The field whose subscript raises first on [enc_dec_prompt], if any:
    [to_enc_dec_tuple_list] reads [encoder_prompt] before
    [decoder_prompt]. *)
Definition missing_field (enc_dec_prompt : dict) : option string :=
  match enc_dec_prompt !! "encoder_prompt" with
  | None => Some "encoder_prompt"
  | Some _ =>
      match enc_dec_prompt !! "decoder_prompt" with
      | None => Some "decoder_prompt"
      | Some _ => None
      end
  end.

(** ** Reading the fields of the constructed dictionaries *)

Lemma lookup_set_if_not_None_eq {A} k (inj : A → value) x (d : dict) :
  d !! k = None → set_if_not_None k inj x d !! k = inj <$> x.
Proof.
  intros Hfresh. destruct x as [a|]; simpl.
  - apply lookup_insert_eq.
  - exact Hfresh.
Qed.

Lemma lookup_set_if_not_None_ne {A} k k' (inj : A → value) x (d : dict) :
  k ≠ k' → set_if_not_None k inj x d !! k' = d !! k'.
Proof.
  intros Hne. destruct x as [a|]; simpl; [|reflexivity].
  by rewrite lookup_insert_ne.
Qed.

Lemma subscript_Ret (d : dict) k v : d !! k = Some v → subscript d k = Ret v.
Proof. unfold subscript. by intros ->. Qed.

Lemma to_enc_dec_tuple_list_cons p rest e d :
  p !! "encoder_prompt" = Some e → p !! "decoder_prompt" = Some d →
  to_enc_dec_tuple_list (p :: rest)
  = tl ← to_enc_dec_tuple_list rest; mret ((e, d) :: tl).
Proof.
  intros He Hd. simpl.
  by rewrite (subscript_Ret _ _ _ He), (subscript_Ret _ _ _ Hd).
Qed.

Lemma required_Some P k (d : dict) :
  required P k d = true → ∃ v, d !! k = Some v ∧ P v = true.
Proof.
  unfold required. destruct (d !! k) as [v|] eqn:E; [|discriminate].
  intros HP. by exists v.
Qed.

(** Unpairing what [build_explicit_enc_dec_prompt] built, element by
    element, gives the tuples back. *)
Lemma to_enc_dec_tuple_list_build (tuples : list (value * value)) :
  to_enc_dec_tuple_list
    ((λ '(e, d), build_explicit_enc_dec_prompt e d) <$> tuples)
  = Ret tuples.
Proof.
  induction tuples as [|[e d] tuples IH]; [reflexivity|].
  rewrite fmap_cons.
  rewrite (to_enc_dec_tuple_list_cons _ _ e d), IH; [reflexivity|..];
    unfold build_explicit_enc_dec_prompt; by simplify_map_eq.
Qed.

Lemma length_zip_min {A B} (l : list A) (k : list B) :
  length (zip l k) = length l `min` length k.
Proof.
  revert k. induction l as [|a l IH]; intros [|b k]; simpl; auto.
Qed.

Lemma lookup_zip_Some {A B} (l : list A) (k : list B) i a b :
  l !! i = Some a → k !! i = Some b → zip l k !! i = Some (a, b).
Proof.
  revert k i. induction l as [|a' l IH]; intros [|b' k] [|i]; simpl;
    try discriminate.
  - by intros [= ->] [= ->].
  - apply IH.
Qed.

(** * Theorems *)

(** C1: unpairing the result of [zip_enc_dec_prompts enc dec] returns
    normally, with the positional zip of [enc] and [dec] cut at the
    shorter length: the output has [min (len enc) (len dec)] elements and
    its [i]-th element is [(enc[i], dec[i])].  It holds for all sequences
    of Python values, singleton prompts among them. *)
Theorem unzip_zip_enc_dec_prompts (enc dec : list value) :
  ∃ out : list (value * value),
    to_enc_dec_tuple_list (zip_enc_dec_prompts enc dec) = Ret out
    ∧ out = zip enc dec
    ∧ length out = length enc `min` length dec
    ∧ (∀ i e d, enc !! i = Some e → dec !! i = Some d → out !! i = Some (e, d))
    ∧ (∀ i : nat, (length enc `min` length dec ≤ i)%nat → out !! i = None).
Proof.
  exists (zip enc dec). split_and!.
  - apply to_enc_dec_tuple_list_build.
  - reflexivity.
  - apply length_zip_min.
  - intros i e d. apply lookup_zip_Some.
  - intros i Hi. apply lookup_ge_None. by rewrite length_zip_min.
Qed.

(** C2: [zip_enc_dec_prompts] returns a list (it has no way to raise) of
    length [min (len enc) (len dec)]; what the longer sequence has beyond
    that length plays no role; the [i]-th pair holds [enc[i]] under
    [encoder_prompt], [dec[i]] under [decoder_prompt] and nothing else;
    three encoder prompts zipped with two decoder prompts give the pairs
    (hello, bar) and (world, baz). *)
Theorem zip_enc_dec_prompts_truncates (enc dec : list value) :
  length (zip_enc_dec_prompts enc dec) = length enc `min` length dec
  ∧ zip_enc_dec_prompts enc dec
    = zip_enc_dec_prompts (take (length enc `min` length dec) enc)
                          (take (length enc `min` length dec) dec)
  ∧ (∀ i e d, enc !! i = Some e → dec !! i = Some d →
       zip_enc_dec_prompts enc dec !! i
       = Some (build_explicit_enc_dec_prompt e d))
  ∧ (∀ i e d, enc !! i = Some e → dec !! i = Some d →
       ∃ p : dict,
         zip_enc_dec_prompts enc dec !! i = Some p
         ∧ p !! "encoder_prompt" = Some e
         ∧ p !! "decoder_prompt" = Some d
         ∧ dom p = {["encoder_prompt"; "decoder_prompt"]})
  ∧ zip_enc_dec_prompts [VStr "hello"; VStr "world"; VStr "foo"]
                        [VStr "bar"; VStr "baz"]
    = [build_explicit_enc_dec_prompt (VStr "hello") (VStr "bar");
       build_explicit_enc_dec_prompt (VStr "world") (VStr "baz")]
  ∧ zip_enc_dec_prompts [VStr "hello"; VStr "world"; VStr "foo"]
                        [VStr "bar"; VStr "baz"]
    = [ {["encoder_prompt" := VStr "hello"; "decoder_prompt" := VStr "bar"]};
        {["encoder_prompt" := VStr "world"; "decoder_prompt" := VStr "baz"]} ].
Proof.
  assert (Hnth : ∀ i e d, enc !! i = Some e → dec !! i = Some d →
            zip_enc_dec_prompts enc dec !! i
            = Some (build_explicit_enc_dec_prompt e d)).
  { intros i e d He Hd. unfold zip_enc_dec_prompts. rewrite list_lookup_fmap.
    by rewrite (lookup_zip_Some _ _ _ _ _ He Hd). }
  split_and!.
  - unfold zip_enc_dec_prompts. by rewrite length_fmap, length_zip_min.
  - clear Hnth. unfold zip_enc_dec_prompts. f_equal. revert dec.
    induction enc as [|e enc IH]; intros [|d dec]; simpl; [done..|].
    f_equal. apply IH.
  - exact Hnth.
  - intros i e d He Hd. exists (build_explicit_enc_dec_prompt e d).
    split; [by apply Hnth|]. unfold build_explicit_enc_dec_prompt.
    split_and!.
    + by rewrite lookup_insert_ne, lookup_singleton_eq.
    + apply lookup_insert_eq.
    + rewrite dom_insert_L, dom_singleton_L. set_solver.
  - reflexivity.
  - unfold zip_enc_dec_prompts, build_explicit_enc_dec_prompt. simpl.
    repeat f_equal; apply map_eq; intros k;
      destruct (decide (k = "decoder_prompt")) as [->|?];
      destruct (decide (k = "encoder_prompt")) as [->|?];
      by simplify_map_eq.
Qed.

(** C3: [token_inputs ids prompt mmd] is tagged ["token"] and holds [ids]
    under [prompt_token_ids]; the field [prompt] is there, with the given
    string, exactly when a prompt was given, and likewise
    [multi_modal_data]; an argument that is [None] leaves no field, in
    particular none holding [None]; there is no other field. *)
Theorem token_inputs_fields (ids : list Z) (prompt : option string)
    (mmd : option MultiModalDataDict) :
  token_inputs ids prompt mmd !! "type" = Some (VStr "token")
  ∧ token_inputs ids prompt mmd !! "prompt_token_ids" = Some (VInts ids)
  ∧ token_inputs ids prompt mmd !! "prompt" = VStr <$> prompt
  ∧ token_inputs ids prompt mmd !! "multi_modal_data" = VMultiModal <$> mmd
  ∧ (is_Some (token_inputs ids prompt mmd !! "prompt") ↔ is_Some prompt)
  ∧ (is_Some (token_inputs ids prompt mmd !! "multi_modal_data") ↔ is_Some mmd)
  ∧ token_inputs ids prompt mmd !! "prompt" ≠ Some VNone
  ∧ token_inputs ids prompt mmd !! "multi_modal_data" ≠ Some VNone
  ∧ dom (token_inputs ids prompt mmd)
    = {["type"; "prompt_token_ids"]}
      ∪ (if prompt is Some _ then {["prompt"]} else ∅)
      ∪ (if mmd is Some _ then {["multi_modal_data"]} else ∅).
Proof.
  assert (Hp : token_inputs ids prompt mmd !! "prompt" = VStr <$> prompt).
  { unfold token_inputs. rewrite lookup_set_if_not_None_ne by done.
    by apply lookup_set_if_not_None_eq. }
  assert (Hm : token_inputs ids prompt mmd !! "multi_modal_data"
               = VMultiModal <$> mmd).
  { unfold token_inputs. apply lookup_set_if_not_None_eq.
    by rewrite lookup_set_if_not_None_ne. }
  split_and!.
  - unfold token_inputs. by rewrite !lookup_set_if_not_None_ne.
  - unfold token_inputs. by rewrite !lookup_set_if_not_None_ne.
  - exact Hp.
  - exact Hm.
  - rewrite Hp. apply fmap_is_Some.
  - rewrite Hm. apply fmap_is_Some.
  - rewrite Hp. by destruct prompt.
  - rewrite Hm. by destruct mmd.
  - unfold token_inputs. destruct prompt, mmd; simpl;
      rewrite ?dom_insert_L, dom_singleton_L; set_solver.
Qed.

(** C4: [embed_inputs e mmd] is tagged ["embed"] and holds [e] under
    [prompt_embeds]; the field [multi_modal_data] is there, with the
    given payload, exactly when one was given; there is no other field. *)
Theorem embed_inputs_fields (e : Tensor) (mmd : option MultiModalDataDict) :
  embed_inputs e mmd !! "type" = Some (VStr "embed")
  ∧ embed_inputs e mmd !! "prompt_embeds" = Some (VTensor e)
  ∧ embed_inputs e mmd !! "multi_modal_data" = VMultiModal <$> mmd
  ∧ (is_Some (embed_inputs e mmd !! "multi_modal_data") ↔ is_Some mmd)
  ∧ embed_inputs e mmd !! "multi_modal_data" ≠ Some VNone
  ∧ dom (embed_inputs e mmd)
    = {["type"; "prompt_embeds"]}
      ∪ (if mmd is Some _ then {["multi_modal_data"]} else ∅).
Proof.
  assert (Hm : embed_inputs e mmd !! "multi_modal_data" = VMultiModal <$> mmd).
  { unfold embed_inputs. by apply lookup_set_if_not_None_eq. }
  split_and!.
  - unfold embed_inputs. by rewrite lookup_set_if_not_None_ne.
  - unfold embed_inputs. by rewrite lookup_set_if_not_None_ne.
  - exact Hm.
  - rewrite Hm. apply fmap_is_Some.
  - rewrite Hm. by destruct mmd.
  - unfold embed_inputs. destruct mmd; simpl;
      rewrite ?dom_insert_L, dom_singleton_L; set_solver.
Qed.

(** C5: every call of [empty_inputs] returns the dictionary whose only
    field is [type], holding ["empty"]; two calls return equal values. *)
Theorem empty_inputs_constant (call call' : unit) :
  empty_inputs call = {["type" := VStr "empty"]}
  ∧ dom (empty_inputs call) = {["type"]}
  ∧ (∀ k, empty_inputs call !! k
          = if decide (k = "type") then Some (VStr "empty") else None)
  ∧ empty_inputs call = empty_inputs call'.
Proof.
  unfold empty_inputs. split_and!; [done | apply dom_singleton_L | | done].
  intros k. rewrite lookup_singleton. by repeat case_decide.
Qed.

(** C6: building a pair from each tuple with
    [build_explicit_enc_dec_prompt] and handing the list to
    [to_enc_dec_tuple_list] returns the original tuples, in order. *)
Theorem unzip_build_each (tuples : list (value * value)) :
  to_enc_dec_tuple_list
    (map (λ t, build_explicit_enc_dec_prompt (fst t) (snd t)) tuples)
  = Ret tuples.
Proof.
  etrans; [|apply to_enc_dec_tuple_list_build].
  f_equal. apply map_ext. by intros [e d].
Qed.

(** C7: pairing an encoder prompt with no decoder prompt ([None]) gives a
    dictionary holding the prompt under [encoder_prompt] and [None] under
    [decoder_prompt]; it has no [type] field, is not an [EmptyInputs],
    and neither it nor its decoder entry equals what [empty_inputs]
    returns. *)
Theorem build_without_decoder (encoder_prompt : value) (call : unit) :
  build_explicit_enc_dec_prompt encoder_prompt VNone !! "encoder_prompt"
    = Some encoder_prompt
  ∧ build_explicit_enc_dec_prompt encoder_prompt VNone !! "decoder_prompt"
    = Some VNone
  ∧ build_explicit_enc_dec_prompt encoder_prompt VNone !! "type" = None
  ∧ dom (build_explicit_enc_dec_prompt encoder_prompt VNone)
    = {["encoder_prompt"; "decoder_prompt"]}
  ∧ is_EmptyInputs (build_explicit_enc_dec_prompt encoder_prompt VNone) = false
  ∧ build_explicit_enc_dec_prompt encoder_prompt VNone ≠ empty_inputs call
  ∧ VNone ≠ VDict (empty_inputs call).
Proof.
  unfold build_explicit_enc_dec_prompt, empty_inputs. split_and!.
  - by simplify_map_eq.
  - by simplify_map_eq.
  - by simplify_map_eq.
  - rewrite dom_insert_L, dom_singleton_L. set_solver.
  - unfold is_EmptyInputs, required. by simplify_map_eq.
  - intros Heq. apply (f_equal (λ m : dict, m !! "type")) in Heq.
    by simplify_map_eq.
  - discriminate.
Qed.

(** C8: the three constructors are total functions into dictionaries
    (they only create a dictionary and assign items, which cannot raise)
    and what they return obeys the declared schema and holds no field
    besides the declared ones, for all arguments, the empty token list
    and [None] arguments included. *)
Theorem constructors_total :
  (∀ ids prompt mmd,
     is_TokenInputs (token_inputs ids prompt mmd) = true
     ∧ only_keys ["type"; "prompt_token_ids"; "prompt"; "multi_modal_data"]
                 (token_inputs ids prompt mmd) = true)
  ∧ (∀ e mmd,
       is_EmbedInputs (embed_inputs e mmd) = true
       ∧ only_keys ["type"; "prompt_embeds"; "multi_modal_data"]
                   (embed_inputs e mmd) = true)
  ∧ (∀ call,
       is_EmptyInputs (empty_inputs call) = true
       ∧ only_keys ["type"] (empty_inputs call) = true)
  ∧ (∀ ids prompt mmd, ∃ d, token_inputs ids prompt mmd = d)
  ∧ (∀ e mmd, ∃ d, embed_inputs e mmd = d)
  ∧ (∀ call, ∃ d, empty_inputs call = d)
  ∧ is_TokenInputs (token_inputs [] None None) = true
  ∧ only_keys ["type"; "prompt_token_ids"; "prompt"; "multi_modal_data"]
              (token_inputs [] None None) = true.
Proof.
  split_and!.
  - intros ids [s|] [m|]; split; vm_compute; reflexivity.
  - intros e [m|]; split; vm_compute; reflexivity.
  - intros call. split; vm_compute; reflexivity.
  - intros. by eexists.
  - intros. by eexists.
  - intros. by eexists.
  - vm_compute. reflexivity.
  - vm_compute. reflexivity.
Qed.






(** A pair that holds both fields and no other is what
    [build_explicit_enc_dec_prompt] makes of its two entries. *)
Lemma ExplicitEncoderDecoderPrompt_inv (p : dict) e d :
  p !! "encoder_prompt" = Some e → p !! "decoder_prompt" = Some d →
  only_keys ["encoder_prompt"; "decoder_prompt"] p = true →
  p = build_explicit_enc_dec_prompt e d.
Proof.
  unfold only_keys. rewrite bool_decide_eq_true.
  intros He Hd Hdom.
  apply map_eq. intros k. unfold build_explicit_enc_dec_prompt.
  destruct (decide (k = "decoder_prompt")) as [->|Hk1]; [by simplify_map_eq|].
  destruct (decide (k = "encoder_prompt")) as [->|Hk2]; [by simplify_map_eq|].
  rewrite lookup_insert_ne, lookup_singleton_ne by done.
  apply not_elem_of_dom. intros Hk%Hdom%elem_of_list_to_set.
  apply elem_of_cons in Hk as [?|Hk]; [done|].
  apply elem_of_cons in Hk as [?|Hk]; [done|].
  by apply elem_of_nil in Hk.
Qed.

Lemma ExplicitEncoderDecoderPrompt_fields (p : dict) :
  is_ExplicitEncoderDecoderPrompt p = true →
  ∃ e d, p !! "encoder_prompt" = Some e ∧ p !! "decoder_prompt" = Some d
         ∧ is_SingletonPrompt e = true
         ∧ is_Optional is_SingletonPrompt d = true.
Proof.
  unfold is_ExplicitEncoderDecoderPrompt. rewrite andb_true_iff.
  intros [He Hd].
  apply required_Some in He as (e & He & Hte).
  apply required_Some in Hd as (d & Hd & Htd).
  by exists e, d.
Qed.

(** C10: on a sequence of explicit encoder/decoder pairs,
    [to_enc_dec_tuple_list] returns a list of the same length whose
    [i]-th tuple is the [encoder_prompt] and the [decoder_prompt] of the
    [i]-th pair; when the pairs hold no further field, pairing the tuples
    again gives the input back. *)
Theorem to_enc_dec_tuple_list_projects (pairs : list dict) :
  Forall (λ p, is_ExplicitEncoderDecoderPrompt p = true) pairs →
  ∃ out : list (value * value),
    to_enc_dec_tuple_list pairs = Ret out
    ∧ length out = length pairs
    ∧ (∀ i p, pairs !! i = Some p →
         ∃ e d, p !! "encoder_prompt" = Some e
                ∧ p !! "decoder_prompt" = Some d
                ∧ out !! i = Some (e, d))
    ∧ (Forall (λ p, only_keys ["encoder_prompt"; "decoder_prompt"] p = true)
              pairs →
       map (λ t, build_explicit_enc_dec_prompt (fst t) (snd t)) out = pairs).
Proof.
  induction 1 as [|p pairs Hp _ (out & Hout & Hlen & Hnth & Hback)].
  - exists []. split_and!; [done..| |done]. intros i p. by rewrite lookup_nil.
  - destruct (ExplicitEncoderDecoderPrompt_fields p Hp)
      as (e & d & He & Hd & _ & _).
    exists ((e, d) :: out). split_and!.
    + by rewrite (to_enc_dec_tuple_list_cons _ _ e d He Hd), Hout.
    + simpl. by rewrite Hlen.
    + intros [|i] q; simpl.
      * intros [= <-]. by exists e, d.
      * apply Hnth.
    + intros Hclosed. inversion Hclosed as [|?? Hp_closed Hrest]; subst.
      simpl. rewrite (Hback Hrest).
      by rewrite <- (ExplicitEncoderDecoderPrompt_inv p e d He Hd Hp_closed).
Qed.

(** * Further properties *)

(** ** The projection [to_enc_dec_tuple_list] *)

Lemma to_enc_dec_tuple_list_cons_Ret p rest e d tl :
  p !! "encoder_prompt" = Some e → p !! "decoder_prompt" = Some d →
  to_enc_dec_tuple_list rest = Ret tl →
  to_enc_dec_tuple_list (p :: rest) = Ret ((e, d) :: tl).
Proof.
  intros He Hd Htl.
  by rewrite (to_enc_dec_tuple_list_cons _ _ e d He Hd), Htl.
Qed.

Lemma to_enc_dec_tuple_list_cons_inv p rest out :
  to_enc_dec_tuple_list (p :: rest) = Ret out →
  ∃ e d tl, p !! "encoder_prompt" = Some e ∧ p !! "decoder_prompt" = Some d
            ∧ to_enc_dec_tuple_list rest = Ret tl ∧ out = (e, d) :: tl.
Proof.
  simpl. unfold subscript.
  destruct (p !! "encoder_prompt") as [e|]; [|discriminate].
  destruct (p !! "decoder_prompt") as [d|]; [|discriminate].
  destruct (to_enc_dec_tuple_list rest) as [tl|err]; [|discriminate].
  intros [= <-]. by exists e, d, tl.
Qed.

Lemma missing_field_None (p : dict) :
  missing_field p = None →
  ∃ e d, p !! "encoder_prompt" = Some e ∧ p !! "decoder_prompt" = Some d.
Proof.
  unfold missing_field.
  destruct (p !! "encoder_prompt") as [e|]; [|discriminate].
  destruct (p !! "decoder_prompt") as [d|]; [|discriminate].
  by exists e, d.
Qed.

Lemma to_enc_dec_tuple_list_missing p rest k :
  missing_field p = Some k →
  to_enc_dec_tuple_list (p :: rest) = Raise (KeyError k).
Proof.
  unfold missing_field. simpl. unfold subscript.
  destruct (p !! "encoder_prompt") as [e|]; [|by intros [= <-]].
  destruct (p !! "decoder_prompt") as [d|]; [discriminate|by intros [= <-]].
Qed.

(** X1: [to_enc_dec_tuple_list] returns [out] exactly when [out] lists,
    pair by pair and in order, the entries stored under
    [encoder_prompt] and [decoder_prompt]; whatever else a pair holds
    plays no role, and a pair lacking one of the two makes it raise. *)
Theorem to_enc_dec_tuple_list_Ret_iff (pairs : list dict)
    (out : list (value * value)) :
  to_enc_dec_tuple_list pairs = Ret out
  ↔ Forall2 (λ p t, p !! "encoder_prompt" = Some (fst t)
                    ∧ p !! "decoder_prompt" = Some (snd t)) pairs out.
Proof.
  split.
  - revert out. induction pairs as [|p pairs IH]; intros out Hout.
    + injection Hout as <-. constructor.
    + apply to_enc_dec_tuple_list_cons_inv in Hout
        as (e & d & tl & He & Hd & Htl & ->).
      constructor; [done|]. by apply IH.
  - induction 1 as [|p [e d] pairs out [He Hd] _ IH]; [done|].
    by apply to_enc_dec_tuple_list_cons_Ret.
Qed.

(** X2: when the pairs before [p] hold both fields and [p] lacks one,
    [to_enc_dec_tuple_list] raises [KeyError] for the field of [p] that is
    read first and missing, [encoder_prompt] before [decoder_prompt],
    whatever follows [p]. *)
Theorem to_enc_dec_tuple_list_first_KeyError (good : list dict) (p : dict)
    (rest : list dict) (k : string) :
  Forall (λ q, missing_field q = None) good →
  missing_field p = Some k →
  to_enc_dec_tuple_list (good ++ p :: rest) = Raise (KeyError k).
Proof.
  intros Hgood Hp. induction Hgood as [|q good Hq _ IH].
  - by apply to_enc_dec_tuple_list_missing.
  - apply missing_field_None in Hq as (e & d & He & Hd).
    rewrite <- app_comm_cons.
    by rewrite (to_enc_dec_tuple_list_cons _ _ e d He Hd), IH.
Qed.

(** X3: [to_enc_dec_tuple_list] raises if and only if some pair lacks a
    field, and returns normally if and only if none does. *)
Theorem to_enc_dec_tuple_list_raises_iff (pairs : list dict) :
  ((∃ k, to_enc_dec_tuple_list pairs = Raise (KeyError k))
   ↔ Exists (λ p, is_Some (missing_field p)) pairs)
  ∧ ((∃ out, to_enc_dec_tuple_list pairs = Ret out)
     ↔ Forall (λ p, missing_field p = None) pairs).
Proof.
  induction pairs as [|p pairs [IHr IHo]].
  - split; split.
    + intros [k Hk]. discriminate.
    + intros H. inversion H.
    + constructor.
    + by exists [].
  - destruct (missing_field p) as [k|] eqn:Hp.
    + pose proof (to_enc_dec_tuple_list_missing p pairs k Hp) as Hraise.
      split; split.
      * intros _. left. by rewrite Hp.
      * intros _. by exists k.
      * intros [out Hout]. congruence.
      * intros H. inversion H; congruence.
    + destruct (missing_field_None p Hp) as (e & d & He & Hd).
      rewrite (to_enc_dec_tuple_list_cons _ _ e d He Hd).
      split; split.
      * intros [k Hk]. right. apply IHr.
        destruct (to_enc_dec_tuple_list pairs) as [tl|[k']]; [discriminate|].
        by exists k'.
      * intros H. inversion H as [?? Hhd|?? Htl]; subst.
        { rewrite Hp in Hhd. by destruct Hhd. }
        apply IHr in Htl as [k Hk]. exists k. by rewrite Hk.
      * intros [out Hout]. constructor; [done|]. apply IHo.
        destruct (to_enc_dec_tuple_list pairs) as [tl|err]; [|discriminate].
        by exists tl.
      * intros H. inversion H as [|?? _ Htl]; subst.
        apply IHo in Htl as [tl Htl]. exists ((e, d) :: tl). by rewrite Htl.
Qed.

(** X4: [to_enc_dec_tuple_list] on a concatenation is the concatenation
    of the two results; an exception of the first part comes first. *)
Theorem to_enc_dec_tuple_list_app (pairs1 pairs2 : list dict) :
  to_enc_dec_tuple_list (pairs1 ++ pairs2)
  = out1 ← to_enc_dec_tuple_list pairs1;
    out2 ← to_enc_dec_tuple_list pairs2;
    mret ((out1 ++ out2)%list).
Proof.
  induction pairs1 as [|p pairs1 IH].
  - simpl. by destruct (to_enc_dec_tuple_list pairs2).
  - rewrite <- app_comm_cons. simpl.
    destruct (subscript p "encoder_prompt") as [e|]; [|done].
    destruct (subscript p "decoder_prompt") as [d|]; [|done].
    rewrite IH.
    destruct (to_enc_dec_tuple_list pairs1) as [out1|]; [|done].
    by destruct (to_enc_dec_tuple_list pairs2).
Qed.

(** X5: [to_enc_dec_tuple_list] reads nothing but [encoder_prompt] and
    [decoder_prompt]: setting any other field of the pairs changes
    neither the result nor the exception. *)
Theorem to_enc_dec_tuple_list_other_field (k : string) (v : value)
    (pairs : list dict) :
  k ≠ "encoder_prompt" → k ≠ "decoder_prompt" →
  to_enc_dec_tuple_list (map (insert k v) pairs)
  = to_enc_dec_tuple_list pairs.
Proof.
  intros Hne Hnd. induction pairs as [|p pairs IH]; [done|].
  simpl. unfold subscript. rewrite !lookup_insert_ne by done.
  by rewrite IH.
Qed.

(** ** Zipping *)

Lemma fst_zip_take {A B} (l : list A) (k : list B) :
  (zip l k).*1 = take (length k) l.
Proof.
  revert k. induction l as [|a l IH]; intros [|b k]; simpl; [done..|].
  by rewrite IH.
Qed.

Lemma snd_zip_take {A B} (l : list A) (k : list B) :
  (zip l k).*2 = take (length l) k.
Proof.
  revert k. induction l as [|a l IH]; intros [|b k]; simpl; [done..|].
  by rewrite IH.
Qed.

Lemma zip_fst_snd_build (tuples : list (value * value)) :
  zip_enc_dec_prompts (tuples.*1) (tuples.*2)
  = (λ '(e, d), build_explicit_enc_dec_prompt e d) <$> tuples.
Proof.
  unfold zip_enc_dec_prompts. by rewrite zip_fst_snd.
Qed.

(** X6: zipping two concatenations whose first parts have the same
    length is concatenating the two zips. *)
Theorem zip_enc_dec_prompts_app (enc1 enc2 dec1 dec2 : list value) :
  length enc1 = length dec1 →
  zip_enc_dec_prompts (enc1 ++ enc2) (dec1 ++ dec2)
  = (zip_enc_dec_prompts enc1 dec1 ++ zip_enc_dec_prompts enc2 dec2)%list.
Proof.
  intros Hlen. unfold zip_enc_dec_prompts.
  rewrite <- fmap_app. f_equal. revert dec1 Hlen.
  induction enc1 as [|e enc1 IH]; intros [|d dec1] Hlen; simpl in *;
    try discriminate; [done|].
  f_equal. apply IH. by injection Hlen.
Qed.

(** X7: [zip_enc_dec_prompts] returns the empty list exactly when one of
    the two sequences is empty. *)
Theorem zip_enc_dec_prompts_nil_iff (enc dec : list value) :
  zip_enc_dec_prompts enc dec = [] ↔ enc = [] ∨ dec = [].
Proof.
  unfold zip_enc_dec_prompts. destruct enc as [|e enc], dec as [|d dec]; simpl.
  - split; [by left | done].
  - split; [by left | done].
  - split; [by right | done].
  - split; [discriminate | by intros [?|?]].
Qed.

(** X8: unpairing a zip gives back, as first components, the encoder
    prompts cut at the number of decoder prompts, and as second
    components the decoder prompts cut at the number of encoder prompts;
    with equal lengths both sequences come back whole. *)
Theorem unzip_zip_prefixes (enc dec : list value) :
  ∃ out : list (value * value),
    to_enc_dec_tuple_list (zip_enc_dec_prompts enc dec) = Ret out
    ∧ out.*1 = take (length dec) enc
    ∧ out.*2 = take (length enc) dec
    ∧ (length enc = length dec → out.*1 = enc ∧ out.*2 = dec).
Proof.
  exists (zip enc dec). split_and!.
  - apply to_enc_dec_tuple_list_build.
  - apply fst_zip_take.
  - apply snd_zip_take.
  - intros Hlen. rewrite fst_zip_take, snd_zip_take.
    rewrite <- Hlen at 1. rewrite Hlen at 2. by rewrite !firstn_all.
Qed.

Lemma only_keys_build e d :
  only_keys ["encoder_prompt"; "decoder_prompt"]
            (build_explicit_enc_dec_prompt e d) = true.
Proof.
  unfold only_keys, build_explicit_enc_dec_prompt.
  apply bool_decide_eq_true_2.
  rewrite dom_insert_L, dom_singleton_L. simpl.
  intros k Hk. apply elem_of_union in Hk as [Hk|Hk].
  - apply elem_of_union_r, elem_of_union_l, Hk.
  - apply elem_of_union_l, Hk.
Qed.

(** X9: when [to_enc_dec_tuple_list] returns, zipping the two component
    sequences of its result gives, pair by pair, a dictionary with the
    same [encoder_prompt] and [decoder_prompt] and no other field; it
    gives the pairs themselves back exactly when they hold no further
    field. *)
Theorem zip_unzip_round_trip (pairs : list dict) (out : list (value * value)) :
  to_enc_dec_tuple_list pairs = Ret out →
  Forall2 (λ p q : dict,
             q !! "encoder_prompt" = p !! "encoder_prompt"
             ∧ q !! "decoder_prompt" = p !! "decoder_prompt"
             ∧ dom q = {["encoder_prompt"; "decoder_prompt"]})
          pairs (zip_enc_dec_prompts (out.*1) (out.*2))
  ∧ (zip_enc_dec_prompts (out.*1) (out.*2) = pairs
     ↔ Forall (λ p, only_keys ["encoder_prompt"; "decoder_prompt"] p = true)
              pairs).
Proof.
  rewrite zip_fst_snd_build. revert out.
  induction pairs as [|p pairs IH]; intros out Hout.
  - injection Hout as <-. split; [constructor|]. split; [constructor|done].
  - apply to_enc_dec_tuple_list_cons_inv in Hout
      as (e & d & tl & He & Hd & Htl & ->).
    destruct (IH tl Htl) as [IHa IHb]. rewrite fmap_cons. split.
    + constructor; [|done]. rewrite He, Hd.
      unfold build_explicit_enc_dec_prompt. split_and!.
      * by rewrite lookup_insert_ne, lookup_singleton_eq.
      * apply lookup_insert_eq.
      * rewrite dom_insert_L, dom_singleton_L. set_solver.
    + split.
      * intros [= Hp Hrest]. constructor.
        { rewrite <- Hp. apply only_keys_build. }
        by apply IHb.
      * intros Hclosed. inversion Hclosed as [|?? Hp Hrest]; subst.
        f_equal; [|by apply IHb].
        symmetry. by apply ExplicitEncoderDecoderPrompt_inv.
Qed.

(** ** Schemas of what the pairing functions build and return *)

Lemma is_ExplicitEncoderDecoderPrompt_build e d :
  is_ExplicitEncoderDecoderPrompt (build_explicit_enc_dec_prompt e d)
  = is_SingletonPrompt e && is_Optional is_SingletonPrompt d.
Proof.
  unfold is_ExplicitEncoderDecoderPrompt.
  unfold required, build_explicit_enc_dec_prompt.
  by rewrite lookup_insert_ne, lookup_singleton_eq, lookup_insert_eq.
Qed.

(** X10: [build_explicit_enc_dec_prompt] checks nothing: what it returns
    obeys the schema of [ExplicitEncoderDecoderPrompt] exactly when the
    encoder argument is a singleton prompt and the decoder argument is
    [None] or a singleton prompt; it never holds a further field. *)
Theorem build_explicit_enc_dec_prompt_schema (e d : value) :
  (is_ExplicitEncoderDecoderPrompt (build_explicit_enc_dec_prompt e d) = true
   ↔ is_SingletonPrompt e = true
     ∧ (d = VNone ∨ is_SingletonPrompt d = true))
  ∧ only_keys ["encoder_prompt"; "decoder_prompt"]
              (build_explicit_enc_dec_prompt e d) = true.
Proof.
  split; [|apply only_keys_build].
  rewrite is_ExplicitEncoderDecoderPrompt_build, andb_true_iff.
  unfold is_Optional. rewrite orb_true_iff.
  split; intros [He Hd]; (split; [done|]).
  - destruct Hd as [Hd|Hd]; [left|by right]. by destruct d.
  - destruct Hd as [->|Hd]; [by left|by right].
Qed.

(** X11: zipping singleton prompts with prompts that are [None] or
    singleton gives pairs that all obey the schema of
    [ExplicitEncoderDecoderPrompt] and hold no further field. *)
Theorem zip_enc_dec_prompts_schema (enc dec : list value) :
  Forall (λ e, is_SingletonPrompt e = true) enc →
  Forall (λ d, is_Optional is_SingletonPrompt d = true) dec →
  Forall (λ p, is_ExplicitEncoderDecoderPrompt p = true
               ∧ only_keys ["encoder_prompt"; "decoder_prompt"] p = true)
         (zip_enc_dec_prompts enc dec).
Proof.
  intros Henc. revert dec.
  induction Henc as [|e enc He _ IH]; intros dec Hdec; [constructor|].
  destruct Hdec as [|d dec Hd Hdec]; [constructor|].
  unfold zip_enc_dec_prompts. simpl. constructor.
  - split; [|apply only_keys_build].
    by rewrite is_ExplicitEncoderDecoderPrompt_build, He, Hd.
  - by apply IH.
Qed.

(** X12: on pairs that obey the schema, every tuple returned by
    [to_enc_dec_tuple_list] holds a singleton prompt and then [None] or
    a singleton prompt, as its declared result type says. *)
Theorem to_enc_dec_tuple_list_schema (pairs : list dict) :
  Forall (λ p, is_ExplicitEncoderDecoderPrompt p = true) pairs →
  ∃ out : list (value * value),
    to_enc_dec_tuple_list pairs = Ret out
    ∧ Forall (λ t, is_SingletonPrompt (fst t) = true
                   ∧ is_Optional is_SingletonPrompt (snd t) = true) out.
Proof.
  induction 1 as [|p pairs Hp _ (out & Hout & Htyped)].
  - by exists [].
  - destruct (ExplicitEncoderDecoderPrompt_fields p Hp)
      as (e & d & He & Hd & Hte & Htd).
    exists ((e, d) :: out). split.
    + by apply to_enc_dec_tuple_list_cons_Ret.
    + by constructor.
Qed.

(** ** The constructors and the schemas of the normalized inputs *)

Lemma lookup_token_inputs ids prompt mmd k :
  token_inputs ids prompt mmd !! k
  = if decide (k = "multi_modal_data") then VMultiModal <$> mmd
    else if decide (k = "prompt") then VStr <$> prompt
    else if decide (k = "prompt_token_ids") then Some (VInts ids)
    else if decide (k = "type") then Some (VStr "token")
    else None.
Proof.
  unfold token_inputs.
  destruct (decide (k = "multi_modal_data")) as [->|Hm].
  { apply lookup_set_if_not_None_eq. by rewrite lookup_set_if_not_None_ne. }
  rewrite lookup_set_if_not_None_ne by done.
  destruct (decide (k = "prompt")) as [->|Hp].
  { by apply lookup_set_if_not_None_eq. }
  rewrite lookup_set_if_not_None_ne by done.
  destruct (decide (k = "prompt_token_ids")) as [->|Hi].
  { apply lookup_insert_eq. }
  rewrite lookup_insert_ne by done.
  destruct (decide (k = "type")) as [->|Ht].
  { apply lookup_singleton_eq. }
  by apply lookup_singleton_ne.
Qed.

Lemma lookup_embed_inputs e mmd k :
  embed_inputs e mmd !! k
  = if decide (k = "multi_modal_data") then VMultiModal <$> mmd
    else if decide (k = "prompt_embeds") then Some (VTensor e)
    else if decide (k = "type") then Some (VStr "embed")
    else None.
Proof.
  unfold embed_inputs.
  destruct (decide (k = "multi_modal_data")) as [->|Hm].
  { by apply lookup_set_if_not_None_eq. }
  rewrite lookup_set_if_not_None_ne by done.
  destruct (decide (k = "prompt_embeds")) as [->|Hi].
  { apply lookup_insert_eq. }
  rewrite lookup_insert_ne by done.
  destruct (decide (k = "type")) as [->|Ht].
  { apply lookup_singleton_eq. }
  by apply lookup_singleton_ne.
Qed.

Lemma lookup_only_keys ks (d : dict) k :
  only_keys ks d = true → k ∉ ks → d !! k = None.
Proof.
  unfold only_keys. intros Hdom%bool_decide_eq_true Hk.
  apply not_elem_of_dom. by intros Hin%Hdom%elem_of_list_to_set.
Qed.

Lemma is_literal_true lit v : is_literal lit v = true → v = VStr lit.
Proof. destruct v; try discriminate. simpl. by intros ->%bool_decide_eq_true. Qed.

Lemma not_required_str k (d : dict) :
  not_required is_str k d = true → ∃ s : option string, d !! k = VStr <$> s.
Proof.
  unfold not_required. destruct (d !! k) as [[]|]; try discriminate.
  - intros _. by eexists (Some _).
  - intros _. by exists None.
Qed.

Lemma not_required_multi_modal k (d : dict) :
  not_required is_multi_modal k d = true →
  ∃ m : option MultiModalDataDict, d !! k = VMultiModal <$> m.
Proof.
  unfold not_required. destruct (d !! k) as [[]|]; try discriminate.
  - intros _. by eexists (Some _).
  - intros _. by exists None.
Qed.

Lemma is_TokenInputs_token_inputs ids prompt mmd :
  is_TokenInputs (token_inputs ids prompt mmd) = true.
Proof. destruct prompt, mmd; vm_compute; reflexivity. Qed.

Lemma is_EmbedInputs_embed_inputs e mmd :
  is_EmbedInputs (embed_inputs e mmd) = true.
Proof. destruct mmd; vm_compute; reflexivity. Qed.

Lemma only_keys_token_inputs ids prompt mmd :
  only_keys ["type"; "prompt_token_ids"; "prompt"; "multi_modal_data"]
            (token_inputs ids prompt mmd) = true.
Proof. destruct prompt, mmd; vm_compute; reflexivity. Qed.

Lemma only_keys_embed_inputs e mmd :
  only_keys ["type"; "prompt_embeds"; "multi_modal_data"]
            (embed_inputs e mmd) = true.
Proof. destruct mmd; vm_compute; reflexivity. Qed.

Lemma is_TokenInputs_inv (d : dict) :
  is_TokenInputs d = true →
  only_keys ["type"; "prompt_token_ids"; "prompt"; "multi_modal_data"] d = true →
  ∃ ids prompt mmd, d = token_inputs ids prompt mmd.
Proof.
  unfold is_TokenInputs. rewrite !andb_true_iff.
  intros [[[Ht Hi] Hp] Hm] Hk.
  apply required_Some in Ht as (t & Ht & ->%is_literal_true).
  apply required_Some in Hi as (i & Hi & Hids).
  destruct i as [| |ids| | |]; try discriminate.
  apply not_required_str in Hp as [prompt Hp].
  apply not_required_multi_modal in Hm as [mmd Hm].
  exists ids, prompt, mmd. apply map_eq. intros k.
  rewrite lookup_token_inputs. repeat case_decide; subst; try done.
  apply (lookup_only_keys _ _ _ Hk).
  rewrite !not_elem_of_cons. split_and!; try done. apply not_elem_of_nil.
Qed.

Lemma is_EmbedInputs_inv (d : dict) :
  is_EmbedInputs d = true →
  only_keys ["type"; "prompt_embeds"; "multi_modal_data"] d = true →
  ∃ e mmd, d = embed_inputs e mmd.
Proof.
  unfold is_EmbedInputs. rewrite !andb_true_iff.
  intros [[Ht He] Hm] Hk.
  apply required_Some in Ht as (t & Ht & ->%is_literal_true).
  apply required_Some in He as (x & He & Hx).
  destruct x as [| | |e| |]; try discriminate.
  apply not_required_multi_modal in Hm as [mmd Hm].
  exists e, mmd. apply map_eq. intros k.
  rewrite lookup_embed_inputs. repeat case_decide; subst; try done.
  apply (lookup_only_keys _ _ _ Hk).
  rewrite !not_elem_of_cons. split_and!; try done. apply not_elem_of_nil.
Qed.

Lemma is_EmptyInputs_inv (d : dict) :
  is_EmptyInputs d = true → only_keys ["type"] d = true →
  d = empty_inputs ().
Proof.
  unfold is_EmptyInputs. intros Ht Hk.
  apply required_Some in Ht as (t & Ht & ->%is_literal_true).
  apply map_eq. intros k. unfold empty_inputs.
  destruct (decide (k = "type")) as [->|Hne].
  - by rewrite lookup_singleton_eq.
  - rewrite lookup_singleton_ne by done.
    apply (lookup_only_keys _ _ _ Hk).
    rewrite not_elem_of_cons. split; [done|apply not_elem_of_nil].
Qed.

(** X13: what [token_inputs] returns are exactly the dictionaries that
    obey the schema of [TokenInputs] and hold no field besides the four
    it declares. *)
Theorem TokenInputs_iff_token_inputs (d : dict) :
  is_TokenInputs d = true
  ∧ only_keys ["type"; "prompt_token_ids"; "prompt"; "multi_modal_data"] d
    = true
  ↔ ∃ ids prompt mmd, d = token_inputs ids prompt mmd.
Proof.
  split.
  - intros [Ht Hk]. by apply is_TokenInputs_inv.
  - intros (ids & prompt & mmd & ->). split.
    + apply is_TokenInputs_token_inputs.
    + apply only_keys_token_inputs.
Qed.

(** X14: what [embed_inputs] returns are exactly the dictionaries that
    obey the schema of [EmbedInputs] and hold no field besides the three
    it declares. *)
Theorem EmbedInputs_iff_embed_inputs (d : dict) :
  is_EmbedInputs d = true
  ∧ only_keys ["type"; "prompt_embeds"; "multi_modal_data"] d = true
  ↔ ∃ e mmd, d = embed_inputs e mmd.
Proof.
  split.
  - intros [Ht Hk]. by apply is_EmbedInputs_inv.
  - intros (e & mmd & ->). split.
    + apply is_EmbedInputs_embed_inputs.
    + apply only_keys_embed_inputs.
Qed.

(** X15: what [empty_inputs] returns is the only dictionary that obeys
    the schema of [EmptyInputs] and holds no field besides [type]. *)
Theorem EmptyInputs_iff_empty_inputs (d : dict) :
  is_EmptyInputs d = true ∧ only_keys ["type"] d = true
  ↔ d = empty_inputs ().
Proof.
  split.
  - intros [Ht Hk]. by apply is_EmptyInputs_inv.
  - intros ->. split; vm_compute; reflexivity.
Qed.

Lemma fmap_VStr_inj (s s' : option string) :
  VStr <$> s = VStr <$> s' → s = s'.
Proof. destruct s, s'; simpl; congruence. Qed.

Lemma fmap_VMultiModal_inj (m m' : option MultiModalDataDict) :
  VMultiModal <$> m = VMultiModal <$> m' → m = m'.
Proof. destruct m, m'; simpl; congruence. Qed.

(** X16: the arguments can be read back from what [token_inputs]
    returns: two calls that return equal dictionaries were given equal
    token ids, equal prompts and equal multi-modal data. *)
Theorem token_inputs_inj ids ids' prompt prompt' mmd mmd' :
  token_inputs ids prompt mmd = token_inputs ids' prompt' mmd' →
  ids = ids' ∧ prompt = prompt' ∧ mmd = mmd'.
Proof.
  intros Heq.
  pose proof (f_equal (λ m : dict, m !! "prompt_token_ids") Heq) as Hi.
  pose proof (f_equal (λ m : dict, m !! "prompt") Heq) as Hp.
  pose proof (f_equal (λ m : dict, m !! "multi_modal_data") Heq) as Hm.
  simpl in Hi, Hp, Hm. rewrite !lookup_token_inputs in Hi, Hp, Hm.
  repeat case_decide; try done.
  split_and!; [congruence|by apply fmap_VStr_inj|by apply fmap_VMultiModal_inj].
Qed.

(** X17: likewise for [embed_inputs]: equal results come from equal
    embeddings and equal multi-modal data. *)
Theorem embed_inputs_inj e e' mmd mmd' :
  embed_inputs e mmd = embed_inputs e' mmd' → e = e' ∧ mmd = mmd'.
Proof.
  intros Heq.
  pose proof (f_equal (λ m : dict, m !! "prompt_embeds") Heq) as He.
  pose proof (f_equal (λ m : dict, m !! "multi_modal_data") Heq) as Hm.
  simpl in He, Hm. rewrite !lookup_embed_inputs in He, Hm.
  repeat case_decide; try done.
  split; [congruence|by apply fmap_VMultiModal_inj].
Qed.

(** X18: likewise for [build_explicit_enc_dec_prompt]: equal pairs come
    from equal encoder prompts and equal decoder prompts. *)
Theorem build_explicit_enc_dec_prompt_inj e e' d d' :
  build_explicit_enc_dec_prompt e d = build_explicit_enc_dec_prompt e' d' →
  e = e' ∧ d = d'.
Proof.
  intros Heq.
  pose proof (f_equal (λ m : dict, m !! "encoder_prompt") Heq) as He.
  pose proof (f_equal (λ m : dict, m !! "decoder_prompt") Heq) as Hd.
  unfold build_explicit_enc_dec_prompt in He, Hd. simpl in He, Hd.
  rewrite !lookup_insert_ne, !lookup_singleton_eq in He by done.
  rewrite !lookup_insert_eq in Hd.
  split; congruence.
Qed.

(** ** Telling the schemas apart *)

Lemma required_literal_ne lit lit' k (d : dict) :
  lit ≠ lit' →
  required (is_literal lit) k d && required (is_literal lit') k d = false.
Proof.
  intros Hne. unfold required. destruct (d !! k) as [[]|]; try done.
  simpl. rewrite andb_false_iff, !bool_decide_eq_false.
  destruct (decide (s = lit)) as [->|]; [by right|by left].
Qed.

Lemma TokenInputs_type (d : dict) :
  is_TokenInputs d = true → required (is_literal "token") "type" d = true.
Proof. unfold is_TokenInputs. rewrite !andb_true_iff. tauto. Qed.

Lemma EmbedInputs_type (d : dict) :
  is_EmbedInputs d = true → required (is_literal "embed") "type" d = true.
Proof. unfold is_EmbedInputs. rewrite !andb_true_iff. tauto. Qed.

Lemma EmptyInputs_type (d : dict) :
  is_EmptyInputs d = true → required (is_literal "empty") "type" d = true.
Proof. by unfold is_EmptyInputs. Qed.

Lemma TokenInputs_EmbedInputs (d : dict) :
  is_TokenInputs d && is_EmbedInputs d = false.
Proof.
  destruct (is_TokenInputs d) eqn:Ht, (is_EmbedInputs d) eqn:He; try done.
  apply TokenInputs_type in Ht. apply EmbedInputs_type in He.
  by rewrite <- (required_literal_ne "token" "embed" "type" d), Ht, He.
Qed.

Lemma TokenInputs_EmptyInputs (d : dict) :
  is_TokenInputs d && is_EmptyInputs d = false.
Proof.
  destruct (is_TokenInputs d) eqn:Ht, (is_EmptyInputs d) eqn:He; try done.
  apply TokenInputs_type in Ht. apply EmptyInputs_type in He.
  by rewrite <- (required_literal_ne "token" "empty" "type" d), Ht, He.
Qed.

Lemma EmbedInputs_EmptyInputs (d : dict) :
  is_EmbedInputs d && is_EmptyInputs d = false.
Proof.
  destruct (is_EmbedInputs d) eqn:Ht, (is_EmptyInputs d) eqn:He; try done.
  apply EmbedInputs_type in Ht. apply EmptyInputs_type in He.
  by rewrite <- (required_literal_ne "embed" "empty" "type" d), Ht, He.
Qed.

(** X19: the tag tells the normalized inputs apart: no dictionary obeys
    two of the schemas [TokenInputs], [EmbedInputs] and [EmptyInputs],
    and an [EmptyInputs] is no [DecoderOnlyInputs]. *)
Theorem normalized_schemas_disjoint (d : dict) :
  is_TokenInputs d && is_EmbedInputs d = false
  ∧ is_TokenInputs d && is_EmptyInputs d = false
  ∧ is_EmbedInputs d && is_EmptyInputs d = false
  ∧ is_DecoderOnlyInputs d && is_EmptyInputs d = false.
Proof.
  split_and!.
  - apply TokenInputs_EmbedInputs.
  - apply TokenInputs_EmptyInputs.
  - apply EmbedInputs_EmptyInputs.
  - unfold is_DecoderOnlyInputs. rewrite andb_orb_distrib_l.
    by rewrite TokenInputs_EmptyInputs, EmbedInputs_EmptyInputs.
Qed.

(** X21: the schemas are structural, so what the constructors return
    can be handed back as a prompt: a result of [token_inputs] obeys
    [TokensPrompt], and [TextPrompt] as well exactly when a prompt was
    given; a result of [embed_inputs] obeys [EmbedsPrompt]; the result
    of [empty_inputs] is no singleton prompt; none of them is an
    [ExplicitEncoderDecoderPrompt]. *)
Theorem normalized_inputs_as_prompts ids prompt mmd e mmd' call :
  is_TokensPrompt (token_inputs ids prompt mmd) = true
  ∧ is_SingletonPrompt (VDict (token_inputs ids prompt mmd)) = true
  ∧ (is_TextPrompt (token_inputs ids prompt mmd) = true ↔ is_Some prompt)
  ∧ is_EmbedsPrompt (embed_inputs e mmd') = true
  ∧ is_SingletonPrompt (VDict (embed_inputs e mmd')) = true
  ∧ is_SingletonPrompt (VDict (empty_inputs call)) = false
  ∧ is_ExplicitEncoderDecoderPrompt (token_inputs ids prompt mmd) = false
  ∧ is_ExplicitEncoderDecoderPrompt (embed_inputs e mmd') = false
  ∧ is_ExplicitEncoderDecoderPrompt (empty_inputs call) = false.
Proof.
  split_and!.
  - destruct prompt, mmd; vm_compute; reflexivity.
  - destruct prompt, mmd; vm_compute; reflexivity.
  - destruct prompt as [s|], mmd; (split; [intros H|intros [s' Hs]]);
      try done; try (by eexists); try (vm_compute; reflexivity);
      vm_compute in H; discriminate.
  - destruct mmd'; vm_compute; reflexivity.
  - destruct mmd'; vm_compute; reflexivity.
  - vm_compute. reflexivity.
  - destruct prompt, mmd; vm_compute; reflexivity.
  - destruct mmd'; vm_compute; reflexivity.
  - vm_compute. reflexivity.
Qed.

(** ** [EncoderDecoderInputs] *)

Lemma is_dict_true P v : is_dict P v = true → ∃ d, v = VDict d ∧ P d = true.
Proof. destruct v as [| | | | |d]; try discriminate. intros HP. by exists d. Qed.

Lemma is_EncoderDecoderInputs_fields (d : dict) :
  is_EncoderDecoderInputs d = true →
  ∃ enc dec,
    d !! "encoder" = Some (VDict enc) ∧ d !! "decoder" = Some (VDict dec)
    ∧ is_TokenInputs enc = true
    ∧ (is_EmptyInputs dec = true ∨ is_TokenInputs dec = true).
Proof.
  unfold is_EncoderDecoderInputs. rewrite !andb_true_iff.
  intros [He Hd].
  apply required_Some in He as (ve & He & (enc & -> & Henc)%is_dict_true).
  apply required_Some in Hd as (vd & Hd & (dec & -> & Hdec)%is_dict_true).
  exists enc, dec. split_and!; [done..|by apply orb_true_iff].
Qed.

(** X23: an [EncoderDecoderInputs] never holds a result of
    [embed_inputs], neither as encoder nor as decoder, and its encoder is
    never the result of [empty_inputs]. *)
Theorem EncoderDecoderInputs_no_embed (d : dict) (e : Tensor)
    (mmd : option MultiModalDataDict) (call : unit) :
  is_EncoderDecoderInputs d = true →
  d !! "encoder" ≠ Some (VDict (embed_inputs e mmd))
  ∧ d !! "decoder" ≠ Some (VDict (embed_inputs e mmd))
  ∧ d !! "encoder" ≠ Some (VDict (empty_inputs call)).
Proof.
  intros (enc & dec & He & Hd & Henc & Hdec)%is_EncoderDecoderInputs_fields.
  pose proof (is_EmbedInputs_embed_inputs e mmd) as Hembed.
  assert (is_EmptyInputs (empty_inputs call) = true) as Hempty
    by (vm_compute; reflexivity).
  rewrite He, Hd.
  split_and!; intros [= ->].
  - pose proof (TokenInputs_EmbedInputs (embed_inputs e mmd)) as H.
    by rewrite Henc, Hembed in H.
  - destruct Hdec as [Hdec|Hdec].
    + pose proof (EmbedInputs_EmptyInputs (embed_inputs e mmd)) as H.
      by rewrite Hdec, Hembed in H.
    + pose proof (TokenInputs_EmbedInputs (embed_inputs e mmd)) as H.
      by rewrite Hdec, Hembed in H.
  - pose proof (TokenInputs_EmptyInputs (empty_inputs call)) as H.
    by rewrite Henc, Hempty in H.
Qed.

(** ** Iterator arguments *)

Lemma next_remaining {A} (c c' : cursor A) (h h' : store A) x :
  next c h = Some (x, c', h') → remaining c h = S (remaining c' h').
Proof.
  destruct c as [[|y rest]|ref]; simpl; [done| |].
  - by intros [= _ <- _].
  - destruct (h !! ref) as [[|y rest]|] eqn:Href; [done| |done].
    intros [= _ <- <-]. simpl. by rewrite lookup_insert_eq.
Qed.

Lemma next_remaining_le {A} (c c2 c2' : cursor A) (h h' : store A) y :
  next c2 h = Some (y, c2', h') → (remaining c h' ≤ remaining c h)%nat.
Proof.
  destruct c2 as [[|z rest]|ref2]; simpl; [done| |].
  - by intros [= _ _ <-].
  - destruct (h !! ref2) as [[|z rest]|] eqn:Href2; [done| |done].
    intros [= _ _ <-]. destruct c as [l|ref]; simpl; [done|].
    destruct (decide (ref2 = ref)) as [->|Hne].
    + rewrite lookup_insert_eq, Href2. simpl. lia.
    + by rewrite lookup_insert_ne.
Qed.

(** The rounds that [builtin_zip] allows are enough: more of them change
    nothing. *)
Lemma zip_rounds_enough {A} (n m : nat) (c1 c2 : cursor A) (h : store A) :
  remaining c1 h < n → remaining c1 h < m →
  zip_rounds n c1 c2 h = zip_rounds m c1 c2 h.
Proof.
  revert m c1 c2 h. induction n as [|n IH]; intros [|m] c1 c2 h Hn Hm;
    try lia.
  simpl. destruct (next c1 h) as [[[x c1'] h1]|] eqn:H1; [|done].
  destruct (next c2 h1) as [[[y c2'] h2]|] eqn:H2; [|done].
  apply next_remaining in H1.
  pose proof (next_remaining_le c1' _ _ _ _ _ H2) as Hle.
  by rewrite (IH m) by lia.
Qed.


Lemma zip_rounds_Fresh_Shared (rounds ref : nat) (enc items : list value)
    (h : store value) :
  h !! ref = Some items → length enc < rounds →
  zip_rounds rounds (Fresh enc) (Shared ref) h
  = (zip enc items, <[ref := drop (length enc) items]> h).
Proof.
  revert enc items h.
  induction rounds as [|rounds IH]; intros enc items h Href Hlen; [lia|].
  destruct enc as [|x enc].
  { simpl. by rewrite drop_0, insert_id. }
  simpl in *. rewrite Href. destruct items as [|y items].
  { by rewrite insert_id. }
  rewrite (IH enc items) by (apply lookup_insert_eq || (simpl; lia)).
  by rewrite insert_insert_eq.
Qed.


(** X25: with a sequence for the encoder prompts and an iterator for the
    decoder prompts, [zip_enc_dec_prompts] takes from the iterator as
    many items as there are encoder prompts and no more. *)
Theorem zip_enc_dec_prompts_decoder_iterator (ref : nat)
    (enc items : list value) (h : store value) :
  h !! ref = Some items →
  zip_enc_dec_prompts_iter (Sequence enc) (Iterator ref) h
  = (zip_enc_dec_prompts enc items, <[ref := drop (length enc) items]> h).
Proof.
  intros Href. unfold zip_enc_dec_prompts_iter, builtin_zip.
  unfold iter, remaining.
  by rewrite (zip_rounds_Fresh_Shared _ _ enc items) by (done || (simpl; lia)).
Qed.

Lemma tuple_rounds_Shared (rounds ref : nat) (pairs : list dict)
    (out : list (value * value)) (h : store dict) :
  h !! ref = Some pairs → length pairs < rounds →
  to_enc_dec_tuple_list pairs = Ret out →
  tuple_rounds rounds (Shared ref) h = (Ret out, <[ref := []]> h).
Proof.
  revert pairs out h.
  induction rounds as [|rounds IH]; intros pairs out h Href Hlen Hout; [lia|].
  simpl. rewrite Href. destruct pairs as [|p pairs].
  { injection Hout as <-. by rewrite insert_id. }
  apply to_enc_dec_tuple_list_cons_inv in Hout
    as (e & d & tl & He & Hd & Htl & ->).
  rewrite (subscript_Ret _ _ _ He), (subscript_Ret _ _ _ Hd). simpl in *.
  rewrite (IH pairs tl) by (apply lookup_insert_eq || done || (simpl; lia)).
  by rewrite insert_insert_eq.
Qed.

(** X26: when [to_enc_dec_tuple_list] is given an iterator and returns,
    it returns what it returns on the sequence of the items the iterator
    had left, and leaves the iterator empty: a second call on the same
    iterator returns the empty list. *)
Theorem to_enc_dec_tuple_list_consumes_iterator (ref : nat)
    (pairs : list dict) (out : list (value * value)) (h : store dict) :
  h !! ref = Some pairs →
  to_enc_dec_tuple_list pairs = Ret out →
  to_enc_dec_tuple_list_iter (Iterator ref) h = (Ret out, <[ref := []]> h)
  ∧ to_enc_dec_tuple_list_iter (Iterator ref) (<[ref := []]> h)
    = (Ret [], <[ref := []]> h).
Proof.
  intros Href Hout. unfold to_enc_dec_tuple_list_iter, iter, remaining.
  rewrite Href, lookup_insert_eq. split.
  - by apply (tuple_rounds_Shared _ _ pairs); [|simpl; lia|].
  - simpl. by rewrite lookup_insert_eq.
Qed.

End Inputs.

Arguments VNone {Tensor MultiModalDataDict}.
Arguments VStr {Tensor MultiModalDataDict} s.
Arguments VInts {Tensor MultiModalDataDict} ids.
Arguments VTensor {Tensor MultiModalDataDict} t.
Arguments VMultiModal {Tensor MultiModalDataDict} m.
Arguments VDict {Tensor MultiModalDataDict} d.
Arguments token_inputs {Tensor MultiModalDataDict}.
Arguments embed_inputs {Tensor MultiModalDataDict}.
Arguments empty_inputs {Tensor MultiModalDataDict}.
Arguments build_explicit_enc_dec_prompt {Tensor MultiModalDataDict}.
Arguments zip_enc_dec_prompts {Tensor MultiModalDataDict}.
Arguments to_enc_dec_tuple_list {Tensor MultiModalDataDict}.
Arguments zip_enc_dec_prompts_iter {Tensor MultiModalDataDict}.
Arguments to_enc_dec_tuple_list_iter {Tensor MultiModalDataDict}.
Arguments only_keys {Tensor MultiModalDataDict}.
Arguments is_ExplicitEncoderDecoderPrompt {Tensor MultiModalDataDict}.
Arguments missing_field {Tensor MultiModalDataDict}.
Arguments is_SingletonPrompt {Tensor MultiModalDataDict}.
Arguments is_Optional {Tensor MultiModalDataDict}.
Arguments is_EncoderDecoderInputs {Tensor MultiModalDataDict}.

(** * Scenarios and instances

    The development is instantiated at [unit] for the two types it is
    parametric in: the scenarios below hold no tensor and no payload. *)

Abbreviation val := (value unit unit).

(** [token_inputs([1, 2, 3], prompt=None, multi_modal_data=None)] *)
Example token_inputs_123 :
  token_inputs (MultiModalDataDict := unit) (Tensor := unit) [1; 2; 3]%Z None None
  = <["prompt_token_ids" := VInts [1; 2; 3]%Z]> {["type" := VStr "token"]}.
Proof. reflexivity. Qed.

(** An empty string is not [None]: the field is stored. *)
Example token_inputs_empty_prompt :
  token_inputs (MultiModalDataDict := unit) (Tensor := unit) [] (Some "") None
    !! "prompt"
  = Some (VStr "").
Proof. reflexivity. Qed.

(** A missing field makes the subscript raise. *)
Example to_enc_dec_tuple_list_KeyError :
  to_enc_dec_tuple_list [({["encoder_prompt" := VStr "hello"]} : gmap string val)]
  = Raise (KeyError "decoder_prompt").
Proof. reflexivity. Qed.

Definition TokensPrompt_5_6 : val := VDict {["prompt_token_ids" := VInts [5; 6]%Z]}.

Definition two_pairs : list (gmap string val) :=
  [build_explicit_enc_dec_prompt (VStr "hello") (VStr "bar");
   build_explicit_enc_dec_prompt TokensPrompt_5_6 VNone].

Definition two_tuples : list (val * val) :=
  [(VStr "hello", VStr "bar"); (TokensPrompt_5_6, VNone)].

Lemma to_enc_dec_tuple_list_projects_witness :
  Forall (λ p, is_ExplicitEncoderDecoderPrompt p = true) two_pairs
  ∧ ∃ out : list (val * val),
      to_enc_dec_tuple_list two_pairs = Ret out
      ∧ length out = length two_pairs
      ∧ (∀ i p, two_pairs !! i = Some p →
           ∃ e d, p !! "encoder_prompt" = Some e
                  ∧ p !! "decoder_prompt" = Some d
                  ∧ out !! i = Some (e, d))
      ∧ (Forall (λ p, only_keys ["encoder_prompt"; "decoder_prompt"] p = true)
                two_pairs →
         map (λ t, build_explicit_enc_dec_prompt (fst t) (snd t)) out
         = two_pairs).
Proof.
  assert (Htyped : Forall (λ p, is_ExplicitEncoderDecoderPrompt p = true) two_pairs).
  { repeat constructor; vm_compute; reflexivity. }
  split; [exact Htyped|].
  exact (to_enc_dec_tuple_list_projects unit unit two_pairs Htyped).
Defined.

(** ** An iterator argument is consumed *)






(** ** Instances of the further properties *)

Definition encoder_only : gmap string val := {["encoder_prompt" := VStr "world"]}.

Lemma to_enc_dec_tuple_list_first_KeyError_witness :
  Forall (λ q, missing_field q = None) two_pairs
  ∧ missing_field encoder_only = Some "decoder_prompt"
  ∧ to_enc_dec_tuple_list (two_pairs ++ encoder_only :: [∅])
    = Raise (KeyError "decoder_prompt").
Proof.
  assert (Hgood : Forall (λ q : gmap string val, missing_field q = None) two_pairs).
  { repeat constructor. }
  assert (Hp : missing_field encoder_only = Some "decoder_prompt").
  { reflexivity. }
  split_and!; [exact Hgood | exact Hp |].
  exact (to_enc_dec_tuple_list_first_KeyError unit unit
           two_pairs encoder_only [∅] "decoder_prompt" Hgood Hp).
Defined.

Lemma to_enc_dec_tuple_list_other_field_witness :
  to_enc_dec_tuple_list (map (insert "note" (VStr "x")) two_pairs)
  = to_enc_dec_tuple_list two_pairs.
Proof.
  apply (to_enc_dec_tuple_list_other_field unit unit); discriminate.
Defined.

Lemma zip_enc_dec_prompts_app_witness :
  zip_enc_dec_prompts ([VStr "a"] ++ [VStr "b"; VStr "c"])
                      ([VNone] ++ [VStr "d"])
  = (zip_enc_dec_prompts [VStr "a"] [VNone]
     ++ zip_enc_dec_prompts [VStr "b"; VStr "c"] [VStr "d"] : list (gmap string val))%list.
Proof.
  apply (zip_enc_dec_prompts_app unit unit). reflexivity.
Defined.

Lemma two_pairs_typed :
  Forall (λ p, is_ExplicitEncoderDecoderPrompt p = true) two_pairs.
Proof. repeat constructor; vm_compute; reflexivity. Defined.

Lemma two_pairs_two_tuples : to_enc_dec_tuple_list two_pairs = Ret two_tuples.
Proof. vm_compute. reflexivity. Defined.

Lemma zip_unzip_round_trip_witness :
  Forall2 (λ p q : gmap string val,
             q !! "encoder_prompt" = p !! "encoder_prompt"
             ∧ q !! "decoder_prompt" = p !! "decoder_prompt"
             ∧ dom q = {["encoder_prompt"; "decoder_prompt"]})
          two_pairs (zip_enc_dec_prompts (two_tuples.*1) (two_tuples.*2))
  ∧ (zip_enc_dec_prompts (two_tuples.*1) (two_tuples.*2) = two_pairs
     ↔ Forall (λ p, only_keys ["encoder_prompt"; "decoder_prompt"] p = true)
              two_pairs).
Proof.
  exact (zip_unzip_round_trip unit unit two_pairs two_tuples
           two_pairs_two_tuples).
Defined.

Lemma zip_enc_dec_prompts_schema_witness :
  Forall (λ p, is_ExplicitEncoderDecoderPrompt p = true
               ∧ only_keys ["encoder_prompt"; "decoder_prompt"] p = true)
         (zip_enc_dec_prompts [VStr "hello"; TokensPrompt_5_6]
                              [VStr "bar"; VNone]).
Proof.
  apply (zip_enc_dec_prompts_schema unit unit);
    repeat constructor; vm_compute; reflexivity.
Defined.

Lemma to_enc_dec_tuple_list_schema_witness :
  ∃ out : list (val * val),
    to_enc_dec_tuple_list two_pairs = Ret out
    ∧ Forall (λ t, is_SingletonPrompt (fst t) = true
                   ∧ is_Optional is_SingletonPrompt (snd t) = true) out.
Proof.
  exact (to_enc_dec_tuple_list_schema unit unit two_pairs two_pairs_typed).
Defined.

Lemma token_inputs_inj_witness :
  [1; 2]%Z = [1; 2]%Z ∧ Some "hi" = Some "hi" ∧ (None : option unit) = None.
Proof.
  apply (token_inputs_inj unit unit). reflexivity.
Defined.

Lemma embed_inputs_inj_witness :
  tt = tt ∧ Some tt = Some tt.
Proof.
  apply (embed_inputs_inj unit unit). reflexivity.
Defined.

Lemma build_explicit_enc_dec_prompt_inj_witness :
  (VStr "hello" : val) = VStr "hello" ∧ (VNone : val) = VNone.
Proof.
  apply (build_explicit_enc_dec_prompt_inj unit unit). reflexivity.
Defined.

Definition token_then_empty : gmap string val :=
  <["decoder" := VDict (empty_inputs ())]>
    {["encoder" := VDict (token_inputs [1; 2; 3]%Z (Some "hi") None)]}.

Lemma EncoderDecoderInputs_no_embed_witness :
  is_EncoderDecoderInputs token_then_empty = true
  ∧ token_then_empty !! "encoder" ≠ Some (VDict (embed_inputs tt None))
  ∧ token_then_empty !! "decoder" ≠ Some (VDict (embed_inputs tt None))
  ∧ token_then_empty !! "encoder" ≠ Some (VDict (empty_inputs ())).
Proof.
  assert (Htyped : is_EncoderDecoderInputs token_then_empty = true).
  { vm_compute. reflexivity. }
  split; [exact Htyped|].
  exact (EncoderDecoderInputs_no_embed unit unit token_then_empty tt None ()
           Htyped).
Defined.

Definition hello_world_foo : store val :=
  {[ 0 := [VStr "hello"; VStr "world"; VStr "foo"; VStr "qux"] ]}.


(** Of four decoder prompts in an iterator and two encoder prompts, two
    are paired and two are left. *)
Lemma zip_enc_dec_prompts_decoder_iterator_witness :
  zip_enc_dec_prompts_iter (Sequence [VStr "bar"; VStr "baz"]) (Iterator 0)
    hello_world_foo
  = (zip_enc_dec_prompts
       [VStr "bar"; VStr "baz"]
       [VStr "hello"; VStr "world"; VStr "foo"; VStr "qux"],
     <[0 := [VStr "foo"; VStr "qux"]]> hello_world_foo).
Proof.
  apply (zip_enc_dec_prompts_decoder_iterator unit unit 0
           [VStr "bar"; VStr "baz"]
           [VStr "hello"; VStr "world"; VStr "foo"; VStr "qux"]).
  reflexivity.
Defined.

Definition two_pairs_iterator : store (gmap string val) := {[ 0 := two_pairs ]}.

Lemma to_enc_dec_tuple_list_consumes_iterator_witness :
  to_enc_dec_tuple_list_iter (Iterator 0) two_pairs_iterator
  = (Ret two_tuples, <[0 := []]> two_pairs_iterator)
  ∧ to_enc_dec_tuple_list_iter (Iterator 0) (<[0 := []]> two_pairs_iterator)
    = (Ret [], <[0 := []]> two_pairs_iterator).
Proof.
  apply (to_enc_dec_tuple_list_consumes_iterator unit unit 0 two_pairs).
  - reflexivity.
  - exact two_pairs_two_tuples.
Defined.
